(** * ORATS options dashboard (app.py): data shaping and pipeline

    A shallow embedding of the script [app.py]: the tables it builds from
    the provider's JSON, the near-term window filter, the nearest-ATM
    selection, the prompt builder and the page run with its four outbound
    calls.

    Conventions.
    - Decimals (prices, strikes, greeks) are exact rationals [Q]; the
      constant [0.05] is [5 # 100].
    - A date is its day ordinal in [Z]; adding [timedelta(days=60)] is [+ 60].
    - A data frame is the list of its rows in order, each with its index
      label, together with the column names it has.
    - A cell of a date column whose record lacks the key is [None] (NaT).
    - Cells are typed: a date string is taken as parsed, [strike] and the
      greeks are numbers that every strike record carries.
    - A run starts at [if ticker:] with the ticker already stripped and
      upper-cased; its world fixes the responses of the four outbound calls
      and the current date. *)

From Stdlib Require Import List ZArith QArith Qabs Bool String Sorted Lia.
Import ListNotations.

Local Open Scope Z_scope.

(** ** Exceptions and fallible values *)

Inductive exn : Type :=
| KeyError (key : string)
| TypeError (msg : string)
| ValueError (msg : string)
| RequestError (msg : string).

(** [str(e)], what [f"{e}"] interpolates. *)
Definition exn_str (e : exn) : string :=
  match e with
  | KeyError k => ("'" ++ k ++ "'")%string
  | TypeError m | ValueError m | RequestError m => m
  end.

Inductive result (A : Type) : Type :=
| Ok (a : A)
| Raise (e : exn).
Arguments Ok {A} a.
Arguments Raise {A} e.

Definition rbind {A B} (r : result A) (k : A -> result B) : result B :=
  match r with
  | Ok a => k a
  | Raise e => Raise e
  end.

Fixpoint rmap {A B} (f : A -> result B) (l : list A) : result (list B) :=
  match l with
  | [] => Ok []
  | x :: l' =>
      rbind (f x) (fun y => rbind (rmap f l') (fun ys => Ok (y :: ys)))
  end.

(** ** Records of the three provider tables *)

Record StrikeRecord : Type := {
  expiration : option Z;
  expirDate : option Z;
  strike : Q;
  callMidIv : Q;
  putMidIv : Q;
  delta : Q;
  gamma : Q;
  theta : Q;
  vega : Q
}.

Record CoreRecord : Type := {
  core_ticker : string;
  tradeDate : Z;
  contango : Q;
  slope : Q;
  deriv : Q
}.

Record SummaryRecord : Type := {
  sm_ticker : string;
  sm_tradeDate : Z
}.

(** The quote-summary table.  The records of one response share their keys:
    either every record carries [stockPrice] or none does. *)
Inductive Summaries : Type :=
| WithStockPrice (rows : list (Q * SummaryRecord))
| WithoutStockPrice (rows : list SummaryRecord).

(** ** Data frames of strike records *)

Definition Rows : Type := list (nat * StrikeRecord).

Record DataFrame : Type := {
  columns : list string;
  body : Rows
}.

Definition has_key (f : StrikeRecord -> option Z) (data : list StrikeRecord) : bool :=
  existsb (fun r => match f r with Some _ => true | None => false end) data.

(** [pd.DataFrame(data)]: a RangeIndex, and one column per key that occurs
    in some record. *)
Definition pd_DataFrame (data : list StrikeRecord) : DataFrame :=
  {| columns :=
       (if has_key expiration data then ["expiration"%string] else []) ++
       (if has_key expirDate data then ["expirDate"%string] else []) ++
       (match data with
        | [] => []
        | _ :: _ =>
            ["strike"; "callMidIv"; "putMidIv"; "delta"; "gamma"; "theta"; "vega"]%string
        end);
     body := combine (seq 0 (List.length data)) data |}.

(** [c in df.columns] *)
Definition has_column (c : string) (df : DataFrame) : bool :=
  existsb (String.eqb c) (columns df).

(** [df.empty] on a list of rows. *)
Definition empty {A} (rows : list A) : bool :=
  match rows with
  | [] => true
  | _ :: _ => false
  end.

(** [df[c]] for a date column: the cells with their labels, or KeyError. *)
Definition date_column (c : string) (f : StrikeRecord -> option Z)
    (df : DataFrame) : result (list (nat * option Z)) :=
  if has_column c df
  then Ok (map (fun ir => (fst ir, f (snd ir))) (body df))
  else Raise (KeyError c).

(** Comparison of a date cell with a date; a missing cell compares false. *)
Definition date_ge (c : option Z) (d : Z) : bool :=
  match c with
  | Some x => d <=? x
  | None => false
  end.

Definition date_le (c : option Z) (d : Z) : bool :=
  match c with
  | Some x => x <=? d
  | None => false
  end.

(** [m1 & m2] on two boolean series over the same index. *)
Definition mask_and (m1 m2 : list bool) : list bool :=
  map (fun ab => andb (fst ab) (snd ab)) (combine m1 m2).

(** [df[mask]]: the rows whose mask entry is true, labels kept. *)
Fixpoint select (mask : list bool) (rows : Rows) : Rows :=
  match mask, rows with
  | b :: mask', x :: rows' =>
      if b then x :: select mask' rows' else select mask' rows'
  | _, _ => []
  end.

(** ** Near-term window filter (lines 60-64) *)

Definition two_months (today : Z) : Z := today + 60.

Definition df_two_months (today : Z) (df_strikes : DataFrame) : result Rows :=
  rbind (date_column "expiration" expiration df_strikes) (fun col1 =>
  rbind (date_column "expiration" expiration df_strikes) (fun col2 =>
  Ok (select
        (mask_and (map (fun c => date_ge (snd c) today) col1)
                  (map (fun c => date_le (snd c) (two_months today)) col2))
        (body df_strikes)))).

(** A row lies in the window when its expiration is a date in
    [today, today + 60]. *)
Definition in_window (today : Z) (r : StrikeRecord) : Prop :=
  exists d, expiration r = Some d /\ today <= d <= today + 60.

(** [sub] is obtained from [l] by deleting rows: relative order is kept. *)
Inductive subsequence {A} : list A -> list A -> Prop :=
| sub_nil : subsequence [] []
| sub_keep x sub l : subsequence sub l -> subsequence (x :: sub) (x :: l)
| sub_skip x sub l : subsequence sub l -> subsequence sub (x :: l).

(** ** Nearest-ATM selector (lines 66-83) *)

(** Truth value of a float in a condition: zero is false. *)
Definition truthy (x : Q) : bool := negb (Qeq_bool x 0).

Definition atm_threshold (current_price : Q) : Q := ((5 # 100) * current_price)%Q.

(** [(strike - current_price).abs()] on one row. *)
Definition dist (current_price : Q) (ir : nat * StrikeRecord) : Q :=
  Qabs (strike (snd ir) - current_price).
Arguments dist : simpl never.

(** [(df["strike"] - current_price).abs()]: a series over the frame's index. *)
Definition abs_dist (current_price : Q) (rows : Rows) : list (nat * Q) :=
  map (fun ir => (fst ir, dist current_price ir)) rows.

(** Index labels of a frame; every frame of a run has them pairwise distinct. *)
Definition index (rows : Rows) : list nat := map fst rows.

Definition Qlt_bool (a b : Q) : bool := negb (Qle_bool b a).

(** [Series.idxmin()]: the label of the first occurrence of the minimum;
    ValueError on an empty series. *)
Fixpoint idxmin_from (best : nat * Q) (s : list (nat * Q)) : nat :=
  match s with
  | [] => fst best
  | x :: s' =>
      if Qlt_bool (snd x) (snd best) then idxmin_from x s' else idxmin_from best s'
  end.

Definition idxmin (s : list (nat * Q)) : result nat :=
  match s with
  | [] => Raise (ValueError "attempt to get argmin of an empty sequence")
  | x :: s' => Ok (idxmin_from x s')
  end.

(** [group.loc[idx]]: the rows carrying label [idx]; KeyError when none does. *)
Definition loc (rows : Rows) (idx : nat) : result (list StrikeRecord) :=
  match filter (fun ir => Nat.eqb (fst ir) idx) rows with
  | [] => Raise (KeyError "idx")
  | hits => Ok (map snd hits)
  end.

Definition closest_atm (current_price : Q) (group : Rows) : result (list StrikeRecord) :=
  rbind (idxmin (abs_dist current_price group)) (fun idx => loc group idx).

(** [groupby("expiration")]: the distinct non-null keys in ascending order,
    each with its rows in frame order. *)
Fixpoint insert_key (k : Z) (ks : list Z) : list Z :=
  match ks with
  | [] => [k]
  | k' :: rest =>
      if k <? k' then k :: ks
      else if k =? k' then ks
      else k' :: insert_key k rest
  end.

Fixpoint group_keys (rows : Rows) : list Z :=
  match rows with
  | [] => []
  | ir :: rows' =>
      match expiration (snd ir) with
      | Some k => insert_key k (group_keys rows')
      | None => group_keys rows'
      end
  end.

Definition has_expiration (k : Z) (ir : nat * StrikeRecord) : bool :=
  match expiration (snd ir) with
  | Some d => d =? k
  | None => false
  end.

Definition groupby_expiration (rows : Rows) : list (Z * Rows) :=
  map (fun k => (k, filter (has_expiration k) rows)) (group_keys rows).

(** [.apply(f)] followed by [.reset_index(drop=True)]: the selected rows of
    the groups, in group order, relabelled from zero. *)
Definition reset_index (rs : list StrikeRecord) : Rows :=
  combine (seq 0 (List.length rs)) rs.

Definition select_per_date (current_price : Q) (df_atm : Rows) : result Rows :=
  rbind (rmap (fun kg => closest_atm current_price (snd kg)) (groupby_expiration df_atm))
        (fun picked => Ok (reset_index (List.concat picked))).

(** The 5% band (lines 68-71). *)
Definition tight_band (current_price : Q) (window : Rows) : Rows :=
  select (map (fun d => Qle_bool (snd d) (atm_threshold current_price))
              (abs_dist current_price window))
         window.

(** The candidate set after the fallback (lines 72-73). *)
Definition df_atm (current_price : Q) (window : Rows) : Rows :=
  let tight := tight_band current_price window in
  if empty tight then window else tight.

(** Lines 66-83: [df_atm_grouped]. *)
Definition df_atm_grouped (window : Rows) (current_price : option Q) : result Rows :=
  match current_price with
  | Some p =>
      if negb (empty window) && truthy p
      then select_per_date p (df_atm p window)
      else Ok []
  | None => Ok []
  end.

(** ** The page run (lines 24-159) *)

(** Text rendering taken from the libraries: [DataFrame.to_string(index=False)]
    on each table and the float format [:.2f]. *)
Class Rendering : Type := {
  summaries_to_string : Summaries -> string;
  strikes_to_string : Rows -> string;
  cores_to_string : list CoreRecord -> string;
  format_2f : Q -> string
}.

Inductive table : Type :=
| SummariesTable (df : Summaries)
| AtmTable (df : Rows)
| CoresTable (df : list CoreRecord).

(** What a run does that can be observed: outbound calls and page output. *)
Inductive event : Type :=
| requests_get (url : string)
| ChatCompletion_create (messages : list (string * string))
| st_error (msg : string)
| st_write (msg : string)
| st_dataframe (t : table).

(** The outside of a run.  A response is the outcome of
    [requests.get(url).json()] followed by [.get("data", [])]'s lookup:
    an exception, no [data] key, or the records. *)
Record World : Type := {
  ORATS_TOKEN : string;
  resp_summaries : result (option Summaries);
  resp_strikes : result (option (list StrikeRecord));
  resp_cores : result (option (list CoreRecord));
  completion : list (string * string) -> result string;
  today : Z
}.

(** A run: the events so far and how it ended. *)
Definition page (A : Type) : Type := (list event * result A)%type.

Definition ret {A} (a : A) : page A := ([], Ok a).

Definition bind {A B} (m : page A) (k : A -> page B) : page B :=
  match snd m with
  | Ok a => (fst m ++ fst (k a), snd (k a))
  | Raise e => (fst m, Raise e)
  end.

Definition emit (e : event) : page unit := ([e], Ok tt).

Definition lift {A} (r : result A) : page A := ([], r).

(** [try: m except Exception as e: h e] *)
Definition try_except {A} (m : page A) (h : exn -> page A) : page A :=
  match snd m with
  | Ok a => m
  | Raise e => (fst m ++ fst (h e), snd (h e))
  end.

Notation "x <- m ;; k" := (bind m (fun x => k))
  (at level 61, m at next level, right associativity).
Notation "m ;; k" := (bind m (fun _ => k))
  (at level 61, right associativity).

Definition nl : string := String (Ascii.ascii_of_nat 10) EmptyString.

Local Open Scope string_scope.

Definition summaries_url (token ticker : string) : string :=
  "https://api.orats.io/datav2/summaries?token=" ++ token ++ "&ticker=" ++ ticker.

Definition strikes_url (token ticker : string) : string :=
  "https://api.orats.io/datav2/strikes?token=" ++ token ++ "&ticker=" ++ ticker.

Definition fields : string :=
  "ticker,tradeDate,priorCls,pxAtmIv,contango,atmIvM1,atmFitIvM1,atmFcstIvM1,dtExM1," ++
  "atmIvM2,atmFitIvM2,atmFcstIvM2,dtExM2,slope,deriv".

Definition cores_url (token ticker : string) : string :=
  "https://api.orats.io/datav2/cores?token=" ++ token ++ "&ticker=" ++ ticker ++
  "&fields=" ++ fields.

(** [pd.DataFrame(resp.get("data", []))] for the summaries. *)
Definition summaries_frame (data : option Summaries) : Summaries :=
  match data with
  | Some df => df
  | None => WithoutStockPrice []
  end.

Definition summaries_empty (df : Summaries) : bool :=
  match df with
  | WithStockPrice rows => empty rows
  | WithoutStockPrice rows => empty rows
  end.

(** Lines 35-40: the first row's [stockPrice] when the column exists. *)
Definition stockPrice (df : Summaries) : option Q :=
  match df with
  | WithStockPrice (r :: _) => Some (fst r)
  | _ => None
  end.

Definition set_expiration (d : option Z) (r : StrikeRecord) : StrikeRecord :=
  {| expiration := d; expirDate := expirDate r; strike := strike r;
     callMidIv := callMidIv r; putMidIv := putMidIv r; delta := delta r;
     gamma := gamma r; theta := theta r; vega := vega r |}.

(** Lines 52-58: standardize the expiration field. *)
Definition standardize_expiration (df_strikes : DataFrame) : page DataFrame :=
  if has_column "expiration" df_strikes then
    ret df_strikes
  else if has_column "expirDate" df_strikes then
    ret {| columns := columns df_strikes ++ ["expiration"];
           body := map (fun ir => (fst ir, set_expiration (expirDate (snd ir)) (snd ir)))
                       (body df_strikes) |}
  else
    emit (st_error "Strikes data missing 'expiration' or 'expirDate'.") ;;
    ret df_strikes.

(** Lines 112-135. *)
Definition prompt_user `{Rendering} (ticker summaries_text atm_text cores_text : string)
    (current_price : option Q) : result string :=
  match current_price with
  | None => Raise (TypeError "unsupported format string passed to NoneType.__format__")
  | Some p =>
      Ok (nl ++
       "        You are an expert options trader. Below is specific ORATS data for " ++
       ticker ++
       ":" ++
       nl ++
       "    " ++
       nl ++
       "        1) Summaries Data:" ++
       nl ++
       "        " ++
       summaries_text ++
       nl ++
       "    " ++
       nl ++
       "        2) ATM Options for the Next Two Months:" ++
       nl ++
       "        " ++
       atm_text ++
       nl ++
       "    " ++
       nl ++
       "        3) Core Data:" ++
       nl ++
       "        " ++
       cores_text ++
       nl ++
       "    " ++
       nl ++
       "        Based on these specific numbers, please provide a detailed interpretation. Instead of general educational remarks, analyze what these exact values indicate for " ++
       ticker ++
       "'s diagonal spread strategy. For example, discuss:" ++
       nl ++
       "        - What does the current price of " ++
       format_2f p ++
       " and the fact that ATM options are at a strike of 245 imply?" ++
       nl ++
       "        - How do the specific implied volatility numbers (callMidIv and putMidIv) and Greeks (delta, gamma, theta, vega) influence the strategy?" ++
       nl ++
       "        - What do the core data values such as a contango of 0.2915, slope of 2.327968, and deriv of 0.0651 tell us about the term structure and skew?" ++
       nl ++
       "        - Provide actionable insights based on these exact output values, including potential trade adjustments or strategy recommendations." ++
       nl ++
       "    " ++
       nl ++
       "        Please be as specific as possible in your analysis using the provided data." ++
       nl ++
       "        ")
  end.

(** Lines 112-114 and the prompt: the narrative prompt builder. *)
Definition atm_text `{Rendering} (atm : Rows) : string :=
  if negb (empty atm) then strikes_to_string atm else "No ATM data".

Definition cores_text `{Rendering} (df_cores : list CoreRecord) : string :=
  if negb (empty df_cores) then cores_to_string df_cores else "No Core Data".

Definition build_prompt `{Rendering} (ticker : string) (df_summaries : Summaries)
    (atm : Rows) (df_cores : list CoreRecord) (current_price : option Q) : result string :=
  prompt_user ticker (summaries_to_string df_summaries) (atm_text atm)
              (cores_text df_cores) current_price.

Definition records {A} (data : option (list A)) : list A :=
  match data with
  | Some l => l
  | None => []
  end.

(** Lines 35-43. *)
Definition show_summaries `{Rendering} (ticker : string) (df_summaries : Summaries)
    : page (option Q) :=
  match stockPrice df_summaries with
  | Some p =>
      emit (st_write ("**Current " ++ ticker ++ " price (ORATS Summaries):** " ++ format_2f p))
  | None => emit (st_write "No 'stockPrice' in summaries.")
  end ;;
  emit (st_write "--- **Summaries Data** ---") ;;
  emit (st_dataframe (SummariesTable df_summaries)) ;;
  ret (stockPrice df_summaries).

(** Lines 48-89: strikes fetch, window, ATM selection and its display. *)
Definition strikes_step (w : World) (ticker : string) (current_price : option Q)
    : page Rows :=
  emit (requests_get (strikes_url (ORATS_TOKEN w) ticker)) ;;
  data <- lift (resp_strikes w) ;;
  df_strikes <- standardize_expiration (pd_DataFrame (records data)) ;;
  window <- lift (df_two_months (today w) df_strikes) ;;
  atm <- lift (df_atm_grouped window current_price) ;;
  emit (st_write "--- **ATM Options (Next 2 Months)** ---") ;;
  (if empty atm
   then emit (st_write "No ATM options found within two months.")
   else emit (st_dataframe (AtmTable atm))) ;;
  ret atm.

(** Lines 94-106. *)
Definition cores_step (w : World) (ticker : string) : page (list CoreRecord) :=
  emit (requests_get (cores_url (ORATS_TOKEN w) ticker)) ;;
  data <- lift (resp_cores w) ;;
  let df_cores := records data in
  emit (st_write "--- **ORATS Core Data** ---") ;;
  (if empty df_cores
   then emit (st_write "No core data returned.")
   else emit (st_dataframe (CoresTable df_cores))) ;;
  ret df_cores.

(** Lines 42-140: everything shown and fetched before the completion call;
    yields the messages to send. *)
Definition prepare `{Rendering} (w : World) (ticker : string) (df_summaries : Summaries)
    : page (list (string * string)) :=
  current_price <- show_summaries ticker df_summaries ;;
  atm <- strikes_step w ticker current_price ;;
  df_cores <- cores_step w ticker ;;
  prompt <- lift (build_prompt ticker df_summaries atm df_cores current_price) ;;
  ret [("system", "You are a financial analyst specializing in options strategies.");
       ("user", prompt)].

(** Lines 145-157. *)
Definition interpret (w : World) (messages : list (string * string)) : page unit :=
  emit (st_write "--- **AI Interpretation** ---") ;;
  try_except
    (emit (ChatCompletion_create messages) ;;
     ai_analysis <- lift (completion w messages) ;;
     emit (st_write ai_analysis))
    (fun e => emit (st_error ("Error with OpenAI API: " ++ exn_str e))).

(** Lines 35-159: the [else] branch taken when the summaries are not empty. *)
Definition analysis `{Rendering} (w : World) (ticker : string) (df_summaries : Summaries)
    : page unit :=
  messages <- prepare w ticker df_summaries ;;
  interpret w messages ;;
  emit (st_write "Analysis complete. Check above for AI interpretation of the ORATS data.").

(** The whole run for one ticker (line 24 to the end). *)
Definition run `{Rendering} (w : World) (ticker : string) : page unit :=
  if String.eqb ticker "" then ret tt
  else
    emit (requests_get (summaries_url (ORATS_TOKEN w) ticker)) ;;
    data <- lift (resp_summaries w) ;;
    let df_summaries := summaries_frame data in
    if summaries_empty df_summaries then
      emit (st_error "No summary data returned from ORATS. Check your ticker or API token.")
    else
      analysis w ticker df_summaries.

Definition trace {A} (m : page A) : list event := fst m.
Definition outcome {A} (m : page A) : result A := snd m.

(** The page output of a trace, and the outbound calls it made. *)
Definition is_output (e : event) : bool :=
  match e with
  | st_error _ | st_write _ | st_dataframe _ => true
  | requests_get _ | ChatCompletion_create _ => false
  end.

Definition is_completion_call (e : event) : bool :=
  match e with
  | ChatCompletion_create _ => true
  | _ => false
  end.

Definition outputs (t : list event) : list event := filter is_output t.
Definition calls (t : list event) : list event := filter (fun e => negb (is_output e)) t.

(** The same world with another completion service. *)
Definition with_completion (w : World) (c : list (string * string) -> result string) : World :=
  {| ORATS_TOKEN := ORATS_TOKEN w; resp_summaries := resp_summaries w;
     resp_strikes := resp_strikes w; resp_cores := resp_cores w;
     completion := c; today := today w |}.

(** ** Sample data *)

Definition mk (e : Z) (s : Q) : StrikeRecord :=
  {| expiration := Some e; expirDate := None; strike := s; callMidIv := 0; putMidIv := 0;
     delta := 0; gamma := 0; theta := 0; vega := 0 |}.

#[local] Instance plain_rendering : Rendering :=
  {| summaries_to_string := fun _ => "<summaries>";
     strikes_to_string := fun _ => "<atm>";
     cores_to_string := fun _ => "<cores>";
     format_2f := fun _ => "<price>" |}.

Definition sample_world : World :=
  {| ORATS_TOKEN := "tok";
     resp_summaries :=
       Ok (Some (WithStockPrice [(245%Q, {| sm_ticker := "AAPL"; sm_tradeDate := 100 |})]));
     resp_strikes := Ok (Some [mk 110 240; mk 110 250; mk 120 246; mk 300 245]);
     resp_cores := Ok (Some []);
     completion := fun _ => Ok "fine";
     today := 100 |}.

Definition sample_summary : SummaryRecord := {| sm_ticker := "AAPL"; sm_tradeDate := 100 |}.

(** The provider answers the quote-summary query with no records. *)
Definition no_summary_world : World :=
  {| ORATS_TOKEN := "tok";
     resp_summaries := Ok (Some (WithoutStockPrice []));
     resp_strikes := resp_strikes sample_world;
     resp_cores := resp_cores sample_world;
     completion := completion sample_world;
     today := 100 |}.


(** A strike record that carries neither date key. *)
Definition undated (s : Q) : StrikeRecord :=
  {| expiration := None; expirDate := None; strike := s; callMidIv := 0; putMidIv := 0;
     delta := 0; gamma := 0; theta := 0; vega := 0 |}.

Definition no_expiration_world : World :=
  {| ORATS_TOKEN := "tok";
     resp_summaries := resp_summaries sample_world;
     resp_strikes := Ok (Some [undated 240; undated 250]);
     resp_cores := resp_cores sample_world;
     completion := completion sample_world;
     today := 100 |}.

(** The quote summary has records but no [stockPrice] field. *)
Definition no_price_world : World :=
  {| ORATS_TOKEN := "tok";
     resp_summaries := Ok (Some (WithoutStockPrice [sample_summary]));
     resp_strikes := resp_strikes sample_world;
     resp_cores := resp_cores sample_world;
     completion := completion sample_world;
     today := 100 |}.



Definition failing_completion_world : World :=
  with_completion sample_world (fun _ => Raise (RequestError "Rate limit reached")).


Definition sample_window : Rows := [(0%nat, mk 110 240); (1%nat, mk 110 250); (2%nat, mk 120 246)].

Definition sample_frame : DataFrame :=
  pd_DataFrame [mk 110 240; mk 99 250; mk 160 246; mk 161 245].

(** The two messages of the run on [sample_world]. *)
Definition sample_messages : list (string * string) :=
  match outcome (prepare sample_world "AAPL"
                   (WithStockPrice [(245%Q, {| sm_ticker := "AAPL"; sm_tradeDate := 100 |})]))
  with
  | Ok messages => messages
  | Raise _ => []
  end.

(** What the page shows after the completion call, by its outcome. *)
Definition completion_tail (r : result string) : list event :=
  match r with
  | Ok ai_analysis =>
      [st_write ai_analysis;
       st_write "Analysis complete. Check above for AI interpretation of the ORATS data."]
  | Raise e =>
      [st_error ("Error with OpenAI API: " ++ exn_str e);
       st_write "Analysis complete. Check above for AI interpretation of the ORATS data."]
  end.

(** What the selector picks for one group: a single row of that date, at
    least as near to the price as every row of that date. *)
Definition picked_for (p : Q) (rows : Rows) (kg : Z * Rows) (sel : list StrikeRecord) : Prop :=
  exists i r,
    sel = [r] /\ In (i, r) rows /\ expiration r = Some (fst kg) /\
    forall y, In y rows -> expiration (snd y) = Some (fst kg) ->
              (dist p (i, r) <= dist p y)%Q.

(** The strikes query answers with an empty [data] list. *)
Definition empty_strikes_world : World :=
  {| ORATS_TOKEN := "tok";
     resp_summaries := resp_summaries sample_world;
     resp_strikes := Ok (Some []);
     resp_cores := resp_cores sample_world;
     completion := completion sample_world;
     today := 100 |}.

(** A strike record dated through [expirDate] only. *)
Definition mk_expirDate (e : Z) (s : Q) : StrikeRecord :=
  {| expiration := None; expirDate := Some e; strike := s; callMidIv := 0; putMidIv := 0;
     delta := 0; gamma := 0; theta := 0; vega := 0 |}.

(** The three request URLs of a run and then its completion call. *)
Definition call_sequence (w : World) (ticker : string)
    (messages : list (string * string)) : list event :=
  [requests_get (summaries_url (ORATS_TOKEN w) ticker);
   requests_get (strikes_url (ORATS_TOKEN w) ticker);
   requests_get (cores_url (ORATS_TOKEN w) ticker);
   ChatCompletion_create messages].


(** The system message of every completion call. *)
Definition system_message : string * string :=
  ("system", "You are a financial analyst specializing in options strategies.").

(** * Properties *)

Local Close Scope string_scope.
Local Open Scope list_scope.

(** ** Boolean masks *)

Lemma select_map_filter (f : nat * StrikeRecord -> bool) (rows : Rows) :
  select (map f rows) rows = filter f rows.
Proof.
  induction rows as [|x rows IH]; simpl; [reflexivity|].
  destruct (f x); now rewrite IH.
Qed.

Lemma window_mask (today : Z) (rows : Rows) :
  mask_and
    (map (fun c : nat * option Z => date_ge (snd c) today)
         (map (fun ir : nat * StrikeRecord => (fst ir, expiration (snd ir))) rows))
    (map (fun c : nat * option Z => date_le (snd c) (two_months today))
         (map (fun ir : nat * StrikeRecord => (fst ir, expiration (snd ir))) rows))
  = map (fun ir : nat * StrikeRecord =>
           date_ge (expiration (snd ir)) today
           && date_le (expiration (snd ir)) (two_months today)) rows.
Proof.
  unfold mask_and.
  induction rows as [|x rows IH]; simpl; [reflexivity|].
  now rewrite IH.
Qed.

Lemma in_window_iff (today : Z) (r : StrikeRecord) :
  date_ge (expiration r) today && date_le (expiration r) (two_months today) = true
  <-> in_window today r.
Proof.
  unfold in_window, date_ge, date_le, two_months.
  destruct (expiration r) as [d|]; simpl.
  - rewrite andb_true_iff, !Z.leb_le. split.
    + intros [H1 H2]. exists d. split; [reflexivity|lia].
    + intros [d' [E H]]. injection E as <-. lia.
  - split; [discriminate|]. intros [d [E _]]. discriminate.
Qed.


Lemma subsequence_In {A} (sub l : list A) :
  subsequence sub l -> forall x, In x sub -> In x l.
Proof.
  induction 1 as [|y sub l _ IH|y sub l _ IH]; intros x Hx.
  - exact Hx.
  - destruct Hx as [->|Hx]; [now left|right; now apply IH].
  - right. now apply IH.
Qed.

Lemma df_two_months_filter (today : Z) (df : DataFrame) :
  has_column "expiration" df = true ->
  df_two_months today df =
  Ok (filter (fun ir => date_ge (expiration (snd ir)) today
                        && date_le (expiration (snd ir)) (two_months today))
             (body df)).
Proof.
  intros Hc. unfold df_two_months, date_column. rewrite Hc. simpl.
  now rewrite window_mask, select_map_filter.
Qed.


(** ** First minimum of a distance series *)

Lemma Qlt_bool_iff (a b : Q) : Qlt_bool a b = true <-> (a < b)%Q.
Proof.
  unfold Qlt_bool. rewrite negb_true_iff. split.
  - intros H. apply Qnot_le_lt. intros Hle.
    apply Qle_bool_iff in Hle. congruence.
  - intros H. destruct (Qle_bool b a) eqn:E; [|reflexivity].
    apply Qle_bool_iff in E. exfalso. exact (Qlt_not_le _ _ H E).
Qed.

Lemma Qlt_bool_false (a b : Q) : Qlt_bool a b = false -> (b <= a)%Q.
Proof.
  unfold Qlt_bool. rewrite negb_false_iff. apply Qle_bool_iff.
Qed.

(** Scanning [rows] with running best [b] stops on the first row of
    [b :: rows] whose distance is least. *)
Lemma idxmin_from_split (p : Q) (rows : Rows) :
  forall b : nat * StrikeRecord,
  exists pre x post,
    b :: rows = pre ++ x :: post /\
    idxmin_from (fst b, dist p b) (abs_dist p rows) = fst x /\
    (forall y, In y pre -> (dist p x < dist p y)%Q) /\
    (forall y, In y post -> (dist p x <= dist p y)%Q).
Proof.
  induction rows as [|x rows IH]; intros b.
  - exists [], b, []. repeat split; simpl; intros y [].
  - simpl.
    destruct (Qlt_bool (dist p x) (dist p b)) eqn:Hlt.
    + apply Qlt_bool_iff in Hlt.
      destruct (IH x) as (pre & m & post & Hsplit & Hidx & Hpre & Hpost).
      assert (Hmx : (dist p m <= dist p x)%Q).
      { assert (Hin : In x (pre ++ m :: post)) by (rewrite <- Hsplit; now left).
        apply in_app_or in Hin. destruct Hin as [Hin|[->|Hin]].
        - apply Qlt_le_weak. now apply Hpre.
        - apply Qle_refl.
        - now apply Hpost. }
      exists (b :: pre), m, post. repeat split.
      * simpl. now rewrite Hsplit.
      * exact Hidx.
      * intros y [<-|Hy]; [|now apply Hpre].
        eapply Qle_lt_trans; eassumption.
      * exact Hpost.
    + apply Qlt_bool_false in Hlt.
      destruct (IH b) as (pre & m & post & Hsplit & Hidx & Hpre & Hpost).
      destruct pre as [|b' pre].
      * simpl in Hsplit. injection Hsplit as <- <-.
        exists [], b, (x :: rows). repeat split.
        -- exact Hidx.
        -- intros y [].
        -- intros y [<-|Hy]; [exact Hlt|now apply Hpost].
      * simpl in Hsplit. injection Hsplit as <- ->.
        exists (b :: x :: pre), m, post. repeat split.
        -- exact Hidx.
        -- intros y [<-|[<-|Hy]].
           ++ apply Hpre. now left.
           ++ eapply Qlt_le_trans; [apply Hpre; now left|exact Hlt].
           ++ apply Hpre. now right.
        -- exact Hpost.
Qed.

Lemma filter_none {A} (f : A -> bool) (l : list A) :
  (forall y, In y l -> f y = false) -> filter f l = [].
Proof.
  induction l as [|x l IH]; intros H; simpl; [reflexivity|].
  rewrite (H x (or_introl eq_refl)). apply IH. intros y Hy. apply H. now right.
Qed.

(** With distinct labels, [loc] finds exactly the row that carries the label. *)
Lemma loc_unique (pre post : Rows) (x : nat * StrikeRecord) :
  NoDup (index (pre ++ x :: post)) ->
  loc (pre ++ x :: post) (fst x) = Ok [snd x].
Proof.
  intros Hnd. unfold index in Hnd. rewrite map_app in Hnd. simpl in Hnd.
  pose proof (NoDup_remove_2 _ _ _ Hnd) as Hnot.
  assert (Hother : forall y, In y (pre ++ post) -> Nat.eqb (fst y) (fst x) = false).
  { intros y Hy. apply Nat.eqb_neq. intros E. apply Hnot.
    rewrite <- E, <- map_app. now apply in_map. }
  unfold loc. rewrite filter_app. simpl. rewrite Nat.eqb_refl.
  rewrite !filter_none; [reflexivity| |].
  - intros y Hy. apply Hother, in_or_app. now right.
  - intros y Hy. apply Hother, in_or_app. now left.
Qed.

Lemma closest_atm_first_min (p : Q) (group : Rows) :
  group <> [] -> NoDup (index group) ->
  exists pre x post,
    group = pre ++ x :: post /\
    closest_atm p group = Ok [snd x] /\
    (forall y, In y pre -> (dist p x < dist p y)%Q) /\
    (forall y, In y post -> (dist p x <= dist p y)%Q).
Proof.
  intros Hne Hnd. destruct group as [|b rows]; [congruence|].
  destruct (idxmin_from_split p rows b) as (pre & x & post & Hsplit & Hidx & Hpre & Hpost).
  exists pre, x, post. repeat split; try assumption.
  unfold closest_atm. simpl. rewrite Hidx, Hsplit.
  apply loc_unique. now rewrite <- Hsplit.
Qed.


(** ** Grouping by expiration date *)

Lemma insert_key_In (k x : Z) (ks : list Z) :
  In x (insert_key k ks) <-> x = k \/ In x ks.
Proof.
  induction ks as [|k' ks IH]; simpl.
  - intuition.
  - destruct (k <? k') eqn:Hlt; [simpl; intuition|].
    destruct (k =? k') eqn:Heq.
    + apply Z.eqb_eq in Heq. subst k'. simpl. intuition.
    + simpl. rewrite IH. intuition.
Qed.

Lemma group_keys_In (k : Z) (rows : Rows) :
  In k (group_keys rows) <-> exists ir, In ir rows /\ expiration (snd ir) = Some k.
Proof.
  induction rows as [|ir rows IH]; simpl.
  - split; [intros []|intros (? & [] & _)].
  - destruct (expiration (snd ir)) as [d|] eqn:E.
    + rewrite insert_key_In, IH. split.
      * intros [->|(y & Hy & Ey)]; [exists ir; auto|exists y; auto].
      * intros (y & [<-|Hy] & Ey); [left; congruence|right; exists y; auto].
    + rewrite IH. split.
      * intros (y & Hy & Ey). exists y; auto.
      * intros (y & [<-|Hy] & Ey); [congruence|exists y; auto].
Qed.

Lemma has_expiration_iff (k : Z) (ir : nat * StrikeRecord) :
  has_expiration k ir = true <-> expiration (snd ir) = Some k.
Proof.
  unfold has_expiration. destruct (expiration (snd ir)) as [d|].
  - rewrite Z.eqb_eq. split; congruence.
  - split; discriminate.
Qed.

Lemma filter_index_NoDup (f : nat * StrikeRecord -> bool) (rows : Rows) :
  NoDup (index rows) -> NoDup (index (filter f rows)).
Proof.
  unfold index. induction rows as [|x rows IH]; simpl; intros Hnd; [constructor|].
  inversion Hnd as [|? ? Hnot Hnd']; subst.
  destruct (f x); [simpl; constructor|]; auto.
  intros Hin. apply Hnot. apply in_map_iff in Hin.
  destruct Hin as (y & Ey & Hy). apply filter_In in Hy.
  rewrite <- Ey. apply in_map. tauto.
Qed.

(** Every group is non-empty, keeps distinct labels, and holds rows of its
    own date only. *)
Lemma groupby_expiration_groups (rows : Rows) (k : Z) (g : Rows) :
  NoDup (index rows) ->
  In (k, g) (groupby_expiration rows) ->
  g <> [] /\ NoDup (index g) /\
  (forall x, In x g <-> In x rows /\ expiration (snd x) = Some k).
Proof.
  intros Hnd Hin. unfold groupby_expiration in Hin.
  apply in_map_iff in Hin. destruct Hin as (k' & E & Hk).
  injection E as -> <-. split; [|split].
  - apply group_keys_In in Hk. destruct Hk as (ir & Hir & Eir).
    intros Hnil.
    assert (Hf : In ir (filter (has_expiration k) rows)).
    { apply filter_In. split; [exact Hir|now apply has_expiration_iff]. }
    rewrite Hnil in Hf. exact Hf.
  - now apply filter_index_NoDup.
  - intros x. rewrite filter_In, has_expiration_iff. reflexivity.
Qed.



Lemma tight_band_filter (p : Q) (window : Rows) :
  tight_band p window =
  filter (fun ir => Qle_bool (dist p ir) (atm_threshold p)) window.
Proof.
  unfold tight_band, abs_dist. rewrite map_map. simpl.
  apply (select_map_filter (fun ir => Qle_bool (dist p ir) (atm_threshold p))).
Qed.

Lemma df_atm_index_NoDup (p : Q) (window : Rows) :
  NoDup (index window) -> NoDup (index (df_atm p window)).
Proof.
  intros Hnd. unfold df_atm.
  destruct (empty (tight_band p window)); [exact Hnd|].
  rewrite tight_band_filter. now apply filter_index_NoDup.
Qed.


(** ** One selected row per expiration date, dates ascending *)

Lemma insert_key_sorted (k : Z) (ks : list Z) :
  StronglySorted Z.lt ks -> StronglySorted Z.lt (insert_key k ks).
Proof.
  induction ks as [|k' ks IH]; intros Hs; simpl.
  - repeat constructor.
  - inversion Hs as [|? ? Hs' Hall]; subst.
    destruct (k <? k') eqn:Hlt.
    + apply Z.ltb_lt in Hlt. constructor; [exact Hs|].
      constructor; [exact Hlt|].
      eapply Forall_impl; [|exact Hall]. intros a Ha. lia.
    + destruct (k =? k') eqn:Heq; [exact Hs|].
      apply Z.ltb_ge in Hlt. apply Z.eqb_neq in Heq.
      constructor; [now apply IH|].
      apply Forall_forall. intros a Ha. apply insert_key_In in Ha.
      destruct Ha as [->|Ha]; [lia|].
      rewrite Forall_forall in Hall. now apply Hall.
Qed.

Lemma group_keys_sorted (rows : Rows) : StronglySorted Z.lt (group_keys rows).
Proof.
  induction rows as [|ir rows IH]; simpl; [constructor|].
  destruct (expiration (snd ir)); [now apply insert_key_sorted|exact IH].
Qed.

Lemma reset_index_rows (rs : list StrikeRecord) : map snd (reset_index rs) = rs.
Proof.
  unfold reset_index. generalize 0%nat.
  induction rs as [|r rs IH]; intros start; simpl; [reflexivity|].
  now rewrite IH.
Qed.

Lemma rmap_Forall2 {A B} (f : A -> result B) (P : A -> B -> Prop) (l : list A) :
  (forall x, In x l -> exists y, f x = Ok y /\ P x y) ->
  exists ys, rmap f l = Ok ys /\ Forall2 P l ys.
Proof.
  induction l as [|x l IH]; intros H; simpl.
  - exists []. split; [reflexivity|constructor].
  - destruct (H x (or_introl eq_refl)) as (y & -> & Hy).
    destruct IH as (ys & -> & Hys); [intros z Hz; apply H; now right|].
    exists (y :: ys). split; [reflexivity|now constructor].
Qed.

Lemma closest_atm_picked (p : Q) (rows : Rows) (kg : Z * Rows) :
  NoDup (index rows) -> In kg (groupby_expiration rows) ->
  exists sel, closest_atm p (snd kg) = Ok sel /\ picked_for p rows kg sel.
Proof.
  intros Hnd Hin. destruct kg as [k g].
  destruct (groupby_expiration_groups rows k g Hnd Hin) as (Hne & Hg & Hmem).
  destruct (closest_atm_first_min p g Hne Hg)
    as (pre & [i r] & post & Hsplit & Hsel & Hpre & Hpost).
  assert (Hx : In (i, r) g) by (rewrite Hsplit; apply in_or_app; right; now left).
  exists [r]. split; [exact Hsel|]. exists i, r.
  apply Hmem in Hx. destruct Hx as [Hrows Hexp]. repeat split; try assumption.
  intros y Hy Ey.
  assert (Hyg : In y g) by (apply Hmem; auto).
  rewrite Hsplit in Hyg. apply in_app_or in Hyg. destruct Hyg as [Hyg|[<-|Hyg]].
  - apply Qlt_le_weak. now apply Hpre.
  - apply Qle_refl.
  - now apply Hpost.
Qed.

Lemma picked_expirations (p : Q) (rows : Rows) (groups : list (Z * Rows))
    (picked : list (list StrikeRecord)) :
  Forall2 (picked_for p rows) groups picked ->
  map expiration (List.concat picked) = map (fun kg => Some (fst kg)) groups /\
  forall r, In r (List.concat picked) ->
    exists i, In (i, r) rows /\
      forall y, In y rows -> expiration (snd y) = expiration r ->
                (dist p (i, r) <= dist p y)%Q.
Proof.
  induction 1 as [|kg sel groups picked Hp _ IH]; simpl.
  - split; [reflexivity|intros r []].
  - destruct Hp as (i & r & -> & Hin & Hexp & Hmin). destruct IH as [IH1 IH2].
    simpl. split; [now rewrite Hexp, IH1|].
    intros r' [<-|Hr']; [|now apply IH2].
    exists i. split; [exact Hin|]. intros y Hy Ey. apply Hmin; congruence.
Qed.

(** On a frame with distinct labels the per-date selection returns one row
    for each expiration date that occurs, dates strictly ascending, each row
    taken from the frame and nearest to the price among the rows of its date. *)
Lemma select_per_date_one_per_date (p : Q) (rows : Rows) :
  NoDup (index rows) ->
  exists out,
    select_per_date p rows = Ok out /\
    map (fun x => expiration (snd x)) out = map Some (group_keys rows) /\
    StronglySorted Z.lt (group_keys rows) /\
    forall x, In x out ->
      exists i, In (i, snd x) rows /\
        forall y, In y rows -> expiration (snd y) = expiration (snd x) ->
                  (dist p (i, snd x) <= dist p y)%Q.
Proof.
  intros Hnd. unfold select_per_date.
  destruct (rmap_Forall2 (fun kg => closest_atm p (snd kg)) (picked_for p rows)
              (groupby_expiration rows)) as (picked & -> & Hpicked).
  { intros kg Hin. now apply closest_atm_picked. }
  destruct (picked_expirations p rows _ _ Hpicked) as [Hexp Hmin].
  eexists. split; [reflexivity|]. split; [|split].
  - rewrite <- (map_map snd expiration), reset_index_rows, Hexp.
    unfold groupby_expiration. now rewrite map_map.
  - apply group_keys_sorted.
  - intros x Hx. apply Hmin. rewrite <- (reset_index_rows (List.concat picked)).
    now apply in_map.
Qed.

(** The worked example of the specification: price 245 and the window
    (E1, 240), (E1, 250), (E2, 246) select 240 for E1 (a tie, first wins)
    and 246 for E2. *)
Example selection_example :
  df_atm_grouped sample_window (Some 245%Q) =
  Ok [(0%nat, mk 110 240); (1%nat, mk 120 246)].
Proof. reflexivity. Qed.

(** ** Guard and fallback of the selector *)

Lemma truthy_nonzero (p : Q) : ~ (p == 0)%Q -> truthy p = true.
Proof.
  intros H. unfold truthy. apply negb_true_iff.
  destruct (Qeq_bool p 0) eqn:E; [|reflexivity].
  apply Qeq_bool_iff in E. contradiction.
Qed.

Lemma truthy_zero (p : Q) : (p == 0)%Q -> truthy p = false.
Proof.
  intros H. unfold truthy. apply negb_false_iff. now apply Qeq_bool_iff.
Qed.

(** C2, as amended. For every windowed set and every non-zero current price,
    if the 5% band is empty the selector's output is the per-date
    minimum-distance selection run on the entire windowed set. *)
Theorem fallback_to_full_window (window : Rows) (current_price : Q) :
  ~ (current_price == 0)%Q ->
  tight_band current_price window = [] ->
  df_atm_grouped window (Some current_price) = select_per_date current_price window.
Proof.
  intros Hp Htight. unfold df_atm_grouped.
  rewrite (truthy_nonzero _ Hp), andb_true_r.
  destruct window as [|x window]; [reflexivity|].
  simpl negb. cbv iota. unfold df_atm. now rewrite Htight.
Qed.

(** C9. Without a current price (a quote summary that has no [stockPrice]
    field) the ATM selection is empty whatever the windowed strikes are, and
    it is empty on an empty windowed set whatever the price is. *)
Theorem no_price_or_no_window_no_selection :
  (forall (rows : list SummaryRecord) (window : Rows),
      df_atm_grouped window (stockPrice (WithoutStockPrice rows)) = Ok []) /\
  (forall window : Rows, df_atm_grouped window None = Ok []) /\
  (forall current_price : option Q, df_atm_grouped [] current_price = Ok []).
Proof.
  split; [|split].
  - reflexivity.
  - reflexivity.
  - intros [p|]; reflexivity.
Qed.

(** C10. A current price that is present but equal to zero gives the empty
    selection on every windowed set, the same result as an absent price:
    the guard tests the price's truth value. *)
Theorem zero_price_no_selection (window : Rows) (current_price : Q) :
  (current_price == 0)%Q ->
  df_atm_grouped window (Some current_price) = Ok [] /\
  df_atm_grouped window (Some current_price) = df_atm_grouped window None.
Proof.
  intros Hp. unfold df_atm_grouped.
  rewrite (truthy_zero _ Hp), andb_false_r. split; reflexivity.
Qed.

(** ** Runs: traces and outcomes *)

Lemma bind_outcome {A B} (m : page A) (k : A -> page B) :
  outcome (bind m k) = rbind (outcome m) (fun a => outcome (k a)).
Proof.
  unfold outcome, bind. destruct (snd m); reflexivity.
Qed.

Lemma bind_quiet {A B} (f : event -> bool) (m : page A) (k : A -> page B) :
  existsb f (trace m) = false ->
  (forall a, existsb f (trace (k a)) = false) ->
  existsb f (trace (bind m k)) = false.
Proof.
  unfold trace, bind. intros Hm Hk. destruct (snd m); simpl; [|exact Hm].
  rewrite existsb_app, Hm. apply Hk.
Qed.

Lemma bind_Ok {A B} (t : list event) (a : A) (k : A -> page B) :
  bind (t, Ok a) k = (t ++ fst (k a), snd (k a)).
Proof. reflexivity. Qed.

Lemma bind_Raise {A B} (t : list event) (e : exn) (k : A -> page B) :
  bind (t, Raise e) k = (t, Raise e).
Proof. reflexivity. Qed.

Lemma standardize_quiet (df : DataFrame) :
  existsb is_completion_call (trace (standardize_expiration df)) = false.
Proof.
  unfold standardize_expiration.
  destruct (has_column "expiration" df); [reflexivity|].
  destruct (has_column "expirDate" df); reflexivity.
Qed.

Lemma prepare_quiet `{Rendering} (w : World) (ticker : string) (df : Summaries) :
  existsb is_completion_call (trace (prepare w ticker df)) = false.
Proof.
  unfold prepare, show_summaries, strikes_step, cores_step.
  repeat (apply bind_quiet; [|intros]);
    try apply standardize_quiet; try reflexivity;
    match goal with
    | |- context [match ?x with _ => _ end] => destruct x; reflexivity
    | |- context [if ?x then _ else _] => destruct x; reflexivity
    end.
Qed.

Lemma with_completion_same (w : World) : with_completion w (completion w) = w.
Proof. destruct w; reflexivity. Qed.

Lemma completion_tail_quiet (r : result string) :
  existsb is_completion_call (completion_tail r) = false.
Proof. destruct r; reflexivity. Qed.

(** The trace and outcome of the completion step (lines 145-157 and 159). *)
Lemma interpret_trace (w : World) (messages : list (string * string)) :
  bind (interpret w messages)
       (fun _ => emit (st_write
          "Analysis complete. Check above for AI interpretation of the ORATS data."))
  = (st_write "--- **AI Interpretation** ---"
       :: ChatCompletion_create messages :: completion_tail (completion w messages),
     Ok tt).
Proof.
  unfold interpret, try_except, bind, emit, lift, completion_tail. simpl.
  destruct (completion w messages); reflexivity.
Qed.

Lemma prepare_with_completion `{Rendering} (w : World) c (ticker : string) (df : Summaries) :
  prepare (with_completion w c) ticker df = prepare w ticker df.
Proof. reflexivity. Qed.

(** A run either never reaches the completion call, whatever the completion
    service is, or it makes exactly one such call, after a prefix that does
    not depend on the service, and then ends normally. *)
Lemma analysis_cases `{Rendering} (w : World) (ticker : string) (df : Summaries) :
  analysis w ticker df =
  match outcome (prepare w ticker df) with
  | Ok messages =>
      (trace (prepare w ticker df)
         ++ st_write "--- **AI Interpretation** ---"
         :: ChatCompletion_create messages :: completion_tail (completion w messages),
       Ok tt)
  | Raise e => (trace (prepare w ticker df), Raise e)
  end.
Proof.
  unfold analysis, outcome, trace.
  destruct (prepare w ticker df) as [pre [messages|e]]; [|reflexivity].
  now rewrite bind_Ok, interpret_trace.
Qed.

Lemma run_summaries_raise `{Rendering} (w : World) (ticker : string) (e : exn) :
  String.eqb ticker "" = false -> resp_summaries w = Raise e ->
  run w ticker = ([requests_get (summaries_url (ORATS_TOKEN w) ticker)], Raise e).
Proof.
  intros Ht Hr. unfold run. now rewrite Ht, Hr.
Qed.

Lemma run_summaries_empty `{Rendering} (w : World) (ticker : string) data :
  String.eqb ticker "" = false -> resp_summaries w = Ok data ->
  summaries_empty (summaries_frame data) = true ->
  run w ticker =
  ([requests_get (summaries_url (ORATS_TOKEN w) ticker);
    st_error "No summary data returned from ORATS. Check your ticker or API token."],
   Ok tt).
Proof.
  intros Ht Hr He. unfold run. rewrite Ht, Hr. unfold emit at 1, lift.
  rewrite !bind_Ok. cbv beta zeta. now rewrite He.
Qed.

Lemma run_analysis `{Rendering} (w : World) (ticker : string) data :
  String.eqb ticker "" = false -> resp_summaries w = Ok data ->
  summaries_empty (summaries_frame data) = false ->
  run w ticker =
  (requests_get (summaries_url (ORATS_TOKEN w) ticker)
     :: trace (analysis w ticker (summaries_frame data)),
   outcome (analysis w ticker (summaries_frame data))).
Proof.
  intros Ht Hr He. unfold run. rewrite Ht, Hr. unfold emit at 1, lift.
  rewrite !bind_Ok. cbv beta zeta. now rewrite He.
Qed.

(** A run either never reaches the completion call, whatever the completion
    service is, or it makes exactly one such call, after a prefix that does
    not depend on the service, and then ends normally. *)
Lemma run_shape `{Rendering} (w : World) (ticker : string) :
  (forall c, existsb is_completion_call (trace (run (with_completion w c) ticker)) = false)
  \/
  (exists pre messages,
      existsb is_completion_call pre = false /\
      forall c, run (with_completion w c) ticker =
                (pre ++ ChatCompletion_create messages :: completion_tail (c messages),
                 Ok tt)).
Proof.
  destruct (String.eqb ticker "") eqn:Ht.
  { left. intros c. unfold run. now rewrite Ht. }
  destruct (resp_summaries w) as [data|e] eqn:Hr.
  2:{ left. intros c. now rewrite (run_summaries_raise (with_completion w c) ticker e Ht Hr). }
  destruct (summaries_empty (summaries_frame data)) eqn:Hempty.
  { left. intros c. now rewrite (run_summaries_empty (with_completion w c) ticker data Ht Hr Hempty). }
  pose proof (prepare_quiet w ticker (summaries_frame data)) as Hquiet.
  destruct (outcome (prepare w ticker (summaries_frame data))) as [messages|e] eqn:Hprep.
  - right.
    exists (requests_get (summaries_url (ORATS_TOKEN w) ticker)
              :: trace (prepare w ticker (summaries_frame data))
              ++ [st_write "--- **AI Interpretation** ---"]), messages.
    split.
    + simpl. rewrite existsb_app, Hquiet. reflexivity.
    + intros c. rewrite (run_analysis (with_completion w c) ticker data Ht Hr Hempty), analysis_cases.
      rewrite prepare_with_completion, Hprep.
      cbn [trace outcome fst snd with_completion completion ORATS_TOKEN app].
      rewrite <- app_assoc. reflexivity.
  - left. intros c. rewrite (run_analysis (with_completion w c) ticker data Ht Hr Hempty), analysis_cases.
    rewrite prepare_with_completion, Hprep. simpl. exact Hquiet.
Qed.

(** ** Index labels along the strikes step *)

Lemma combine_seq_index {A} (l : list A) (start : nat) :
  map fst (combine (seq start (List.length l)) l) = seq start (List.length l).
Proof.
  revert start. induction l as [|x l IH]; intros start; simpl; [reflexivity|].
  now rewrite IH.
Qed.


Lemma pd_DataFrame_expiration (data : list StrikeRecord) :
  has_column "expiration" (pd_DataFrame data) = has_key expiration data.
Proof.
  unfold has_column, pd_DataFrame. simpl.
  destruct (has_key expiration data); [reflexivity|].
  destruct (has_key expirDate data); destruct data; reflexivity.
Qed.

Lemma pd_DataFrame_expirDate (data : list StrikeRecord) :
  has_column "expirDate" (pd_DataFrame data) = has_key expirDate data.
Proof.
  unfold has_column, pd_DataFrame. simpl.
  destruct (has_key expiration data);
    destruct (has_key expirDate data); destruct data; reflexivity.
Qed.

Lemma has_column_app (c : string) (cols : list string) (rows : Rows) :
  has_column c {| columns := cols ++ [c]; body := rows |} = true.
Proof.
  unfold has_column. simpl. rewrite existsb_app. simpl.
  now rewrite String.eqb_refl, orb_true_r.
Qed.


(** With neither key the error is shown and the frame has no [expiration]
    column, so the window filter raises. *)
Lemma standardize_expiration_missing (data : list StrikeRecord) :
  has_key expiration data = false -> has_key expirDate data = false ->
  standardize_expiration (pd_DataFrame data) =
    ([st_error "Strikes data missing 'expiration' or 'expirDate'."], Ok (pd_DataFrame data))
  /\ forall today, df_two_months today (pd_DataFrame data) = Raise (KeyError "expiration").
Proof.
  intros He Hd. split.
  - unfold standardize_expiration.
    now rewrite pd_DataFrame_expiration, pd_DataFrame_expirDate, He, Hd.
  - intros t. unfold df_two_months, date_column.
    now rewrite pd_DataFrame_expiration, He.
Qed.



Lemma show_summaries_outcome `{Rendering} (ticker : string) (df : Summaries) :
  outcome (show_summaries ticker df) = Ok (stockPrice df).
Proof.
  unfold show_summaries. destruct (stockPrice df); reflexivity.
Qed.

Lemma cores_step_outcome (w : World) (ticker : string) :
  outcome (cores_step w ticker) =
  rbind (resp_cores w) (fun data => Ok (records data)).
Proof.
  unfold cores_step. rewrite bind_outcome. cbn [outcome emit snd rbind].
  rewrite bind_outcome. cbn [outcome lift snd].
  destruct (resp_cores w) as [data|e]; [|reflexivity].
  cbn [rbind]. destruct (empty (records data)); reflexivity.
Qed.

Lemma prepare_outcome `{Rendering} (w : World) (ticker : string) (df : Summaries) :
  outcome (prepare w ticker df) =
  rbind (outcome (strikes_step w ticker (stockPrice df))) (fun atm =>
  rbind (resp_cores w) (fun data =>
  rbind (build_prompt ticker df atm (records data) (stockPrice df)) (fun prompt =>
  Ok [("system"%string,
       "You are a financial analyst specializing in options strategies."%string);
      ("user"%string, prompt)]))).
Proof.
  unfold prepare.
  rewrite bind_outcome, show_summaries_outcome. cbn [rbind].
  rewrite bind_outcome.
  destruct (outcome (strikes_step w ticker (stockPrice df))) as [atm|e]; [|reflexivity].
  cbn [rbind]. rewrite bind_outcome, cores_step_outcome.
  destruct (resp_cores w) as [data|e]; [|reflexivity].
  cbn [rbind]. rewrite bind_outcome. cbn [outcome lift snd].
  destruct (build_prompt ticker df atm (records data) (stockPrice df)); reflexivity.
Qed.

Lemma analysis_outcome `{Rendering} (w : World) (ticker : string) (df : Summaries) :
  outcome (analysis w ticker df) =
  rbind (outcome (prepare w ticker df)) (fun _ => Ok tt).
Proof.
  rewrite analysis_cases.
  destruct (outcome (prepare w ticker df)); reflexivity.
Qed.


Lemma nonempty_ticker (ticker : string) :
  ticker <> ""%string -> String.eqb ticker "" = false.
Proof. apply String.eqb_neq. Qed.

(** ** The run's error paths *)

(** C4. When the quote-summary query returns no records the run consists of
    that one query followed by one error message and ends there: no strikes,
    cores or completion call is made and the error is the only page output. *)
Theorem empty_summary_aborts `{Rendering} (w : World) (ticker : string)
    (data : option Summaries) :
  ticker <> ""%string ->
  resp_summaries w = Ok data ->
  summaries_empty (summaries_frame data) = true ->
  run w ticker =
    ([requests_get (summaries_url (ORATS_TOKEN w) ticker);
      st_error "No summary data returned from ORATS. Check your ticker or API token."],
     Ok tt) /\
  outputs (trace (run w ticker)) =
    [st_error "No summary data returned from ORATS. Check your ticker or API token."] /\
  calls (trace (run w ticker)) = [requests_get (summaries_url (ORATS_TOKEN w) ticker)].
Proof.
  intros Ht Hr He. apply nonempty_ticker in Ht.
  rewrite (run_summaries_empty w ticker data Ht Hr He).
  repeat split.
Qed.

(** For every world whose strikes records carry neither date key, the error
    is shown and the run then ends with KeyError. *)
Lemma missing_expiration_raises `{Rendering} (w : World) (ticker : string) data sdata :
  ticker <> ""%string ->
  resp_summaries w = Ok data ->
  summaries_empty (summaries_frame data) = false ->
  resp_strikes w = Ok sdata ->
  has_key expiration (records sdata) = false ->
  has_key expirDate (records sdata) = false ->
  outcome (run w ticker) = Raise (KeyError "expiration").
Proof.
  intros Ht Hr He Hs Hk1 Hk2. apply nonempty_ticker in Ht.
  rewrite (run_analysis w ticker data Ht Hr He). cbn [outcome snd].
  change (snd (analysis w ticker (summaries_frame data)))
    with (outcome (analysis w ticker (summaries_frame data))).
  rewrite analysis_outcome, prepare_outcome.
  destruct (standardize_expiration_missing _ Hk1 Hk2) as (Hstd & Hwin).
  unfold strikes_step.
  rewrite bind_outcome. cbn [outcome emit snd rbind].
  rewrite bind_outcome, Hs. cbn [outcome lift snd rbind].
  rewrite bind_outcome, Hstd. cbn [outcome snd rbind].
  rewrite bind_outcome, Hwin. reflexivity.
Qed.

(** C5 (the code at a failing input). Strikes records without [expiration]
    and without [expirDate]: the error message is shown, and the window
    filter then raises KeyError, which ends the run. *)
Theorem missing_expiration_run :
  In (st_error "Strikes data missing 'expiration' or 'expirDate'.")
     (trace (run no_expiration_world "AAPL")) /\
  outcome (run no_expiration_world "AAPL") = Raise (KeyError "expiration").
Proof.
  split.
  - vm_compute. do 5 right. left. reflexivity.
  - vm_compute. reflexivity.
Qed.

(** With a price the builder yields a prompt, and an empty table is replaced
    by its placeholder. *)
Lemma build_prompt_with_price `{Rendering} (ticker : string) (df : Summaries)
    (atm : Rows) (df_cores : list CoreRecord) (p : Q) :
  (exists prompt, build_prompt ticker df atm df_cores (Some p) = Ok prompt) /\
  atm_text [] = "No ATM data"%string /\
  cores_text [] = "No Core Data"%string /\
  (atm <> [] -> atm_text atm = strikes_to_string atm) /\
  (df_cores <> [] -> cores_text df_cores = cores_to_string df_cores).
Proof.
  split; [eexists; reflexivity|]. repeat split.
  - destruct atm; [congruence|reflexivity].
  - destruct df_cores; [congruence|reflexivity].
Qed.

(** C8 (the code at a failing input). With an absent price the builder
    raises TypeError for every ticker and every three record sets, and a run
    on a quote summary without [stockPrice] ends with that exception. *)
Theorem prompt_without_price_raises :
  (forall (R : Rendering) (ticker : string) (df : Summaries) (atm : Rows)
          (df_cores : list CoreRecord),
      build_prompt ticker df atm df_cores None =
      Raise (TypeError "unsupported format string passed to NoneType.__format__")) /\
  outcome (run no_price_world "AAPL") =
    Raise (TypeError "unsupported format string passed to NoneType.__format__").
Proof.
  split.
  - reflexivity.
  - vm_compute. reflexivity.
Qed.

Lemma quiet_not_In (l : list event) (messages : list (string * string)) :
  existsb is_completion_call l = false -> ~ In (ChatCompletion_create messages) l.
Proof.
  intros Hq Hin.
  assert (existsb is_completion_call l = true) as Ht.
  { apply existsb_exists. exists (ChatCompletion_create messages). auto. }
  congruence.
Qed.

(** C7. Whenever a run makes the completion call and the call raises, the
    only things that follow are one error message carrying the exception's
    text and the closing line, and the run ends normally; the call is made
    once (none before it, none after it), and everything shown before the
    call is the same whatever the completion service does. *)
Theorem completion_error_caught `{Rendering} (w : World) (ticker : string)
    (messages : list (string * string)) (e : exn) :
  In (ChatCompletion_create messages) (trace (run w ticker)) ->
  completion w messages = Raise e ->
  exists pre,
    run w ticker =
      (pre ++ [ChatCompletion_create messages;
               st_error ("Error with OpenAI API: " ++ exn_str e)%string;
               st_write
                 "Analysis complete. Check above for AI interpretation of the ORATS data."],
       Ok tt) /\
    existsb is_completion_call pre = false /\
    forall c, exists post,
      trace (run (with_completion w c) ticker) =
      pre ++ ChatCompletion_create messages :: post.
Proof.
  intros Hin Hraise.
  destruct (run_shape w ticker) as [Hnone|(pre & messages0 & Hpre & Hrun)].
  - exfalso. specialize (Hnone (completion w)).
    rewrite with_completion_same in Hnone.
    exact (quiet_not_In _ _ Hnone Hin).
  - pose proof (Hrun (completion w)) as Hw. rewrite with_completion_same in Hw.
    rewrite Hw in Hin. cbn [trace fst] in Hin.
    assert (messages0 = messages) as ->.
    { apply in_app_or in Hin. destruct Hin as [Hin|[Hin|Hin]].
      - exfalso. exact (quiet_not_In _ _ Hpre Hin).
      - congruence.
      - exfalso.
        exact (quiet_not_In _ _ (completion_tail_quiet (completion w messages0)) Hin). }
    exists pre. split; [|split].
    + rewrite Hw, Hraise. reflexivity.
    + exact Hpre.
    + intros c. exists (completion_tail (c messages)). now rewrite Hrun.
Qed.


(** ** Counterexamples to the statements that needed amending *)

(** C2 as stated fails at price zero: the 5% band is empty, the selector
    returns nothing, and the per-date selection on the window returns a row. *)
Lemma fallback_fails_at_zero_price :
  tight_band 0 [(0%nat, mk 110 240)] = [] /\
  df_atm_grouped [(0%nat, mk 110 240)] (Some 0%Q)
  <> select_per_date 0 [(0%nat, mk 110 240)].
Proof.
  split; [reflexivity|]. vm_compute. discriminate.
Qed.


(** ** Instances on sample data *)



Lemma fallback_to_full_window_sample :
  df_atm_grouped [(0%nat, mk 110 240)] (Some 10%Q)
  = select_per_date 10 [(0%nat, mk 110 240)].
Proof.
  apply (fallback_to_full_window [(0%nat, mk 110 240)] 10).
  - discriminate.
  - reflexivity.
Defined.

Lemma zero_price_no_selection_sample :
  df_atm_grouped sample_window (Some 0%Q) = Ok [] /\
  df_atm_grouped sample_window (Some 0%Q) = df_atm_grouped sample_window None.
Proof.
  apply (zero_price_no_selection sample_window 0). reflexivity.
Defined.

Lemma empty_summary_aborts_sample :
  run no_summary_world "AAPL" =
    ([requests_get (summaries_url "tok" "AAPL");
      st_error "No summary data returned from ORATS. Check your ticker or API token."],
     Ok tt) /\
  outputs (trace (run no_summary_world "AAPL")) =
    [st_error "No summary data returned from ORATS. Check your ticker or API token."] /\
  calls (trace (run no_summary_world "AAPL")) = [requests_get (summaries_url "tok" "AAPL")].
Proof.
  apply (empty_summary_aborts no_summary_world "AAPL" (Some (WithoutStockPrice []))).
  - discriminate.
  - reflexivity.
  - reflexivity.
Defined.

Lemma completion_error_caught_sample :
  exists pre,
    run failing_completion_world "AAPL" =
      (pre ++ [ChatCompletion_create sample_messages;
               st_error "Error with OpenAI API: Rate limit reached";
               st_write
                 "Analysis complete. Check above for AI interpretation of the ORATS data."],
       Ok tt) /\
    existsb is_completion_call pre = false /\
    forall c, exists post,
      trace (run (with_completion failing_completion_world c) "AAPL") =
      pre ++ ChatCompletion_create sample_messages :: post.
Proof.
  apply (completion_error_caught failing_completion_world "AAPL" sample_messages
           (RequestError "Rate limit reached")).
  - vm_compute. do 11 right. left. reflexivity.
  - reflexivity.
Defined.


(** * Further properties of the selector *)

Lemma df_atm_grouped_guarded (window : Rows) (p : Q) :
  window <> [] -> truthy p = true ->
  df_atm_grouped window (Some p) = select_per_date p (df_atm p window).
Proof.
  intros Hw Hp. unfold df_atm_grouped. rewrite Hp.
  destruct window; [congruence|reflexivity].
Qed.

Lemma df_atm_grouped_cases (window : Rows) (price : option Q) :
  df_atm_grouped window price = Ok [] \/
  exists p, price = Some p /\ window <> [] /\
            df_atm_grouped window price = select_per_date p (df_atm p window).
Proof.
  destruct price as [p|]; [|now left].
  destruct window as [|x window]; [now left|].
  destruct (truthy p) eqn:Hp.
  - right. exists p. repeat split; [discriminate|].
    apply df_atm_grouped_guarded; [discriminate|exact Hp].
  - left. unfold df_atm_grouped. now rewrite Hp, andb_false_r.
Qed.

Lemma select_per_date_reset (p : Q) (rows out : Rows) :
  select_per_date p rows = Ok out -> exists rs, out = reset_index rs.
Proof.
  unfold select_per_date.
  destruct (rmap _ _) as [picked|e]; simpl; [|discriminate].
  intros E. injection E as <-. eauto.
Qed.

Lemma reset_index_index (rs : list StrikeRecord) :
  index (reset_index rs) = seq 0 (List.length (reset_index rs)).
Proof.
  unfold index, reset_index.
  rewrite combine_seq_index, length_combine, length_seq, Nat.min_id. reflexivity.
Qed.

(** X1. On a window with distinct labels the selection, for any price,
    holds at most one row per expiration date, in strictly ascending date
    order, labelled 0, 1, 2, ... *)
Theorem atm_one_row_per_date (window : Rows) (price : option Q) :
  NoDup (index window) ->
  exists out keys,
    df_atm_grouped window price = Ok out /\
    map (fun x => expiration (snd x)) out = map Some keys /\
    StronglySorted Z.lt keys /\
    index out = seq 0 (List.length out).
Proof.
  intros Hnd.
  destruct (df_atm_grouped_cases window price) as [E|(p & _ & _ & E)].
  - exists [], []. rewrite E. repeat split; constructor.
  - destruct (select_per_date_one_per_date p (df_atm p window)
                (df_atm_index_NoDup p window Hnd)) as (out & Hout & Hexp & Hsorted & _).
    exists out, (group_keys (df_atm p window)). rewrite E. repeat split; try assumption.
    destruct (select_per_date_reset _ _ _ Hout) as (rs & ->).
    apply reset_index_index.
Qed.

Lemma in_band_iff (p : Q) (window : Rows) (x : nat * StrikeRecord) :
  In x (tight_band p window) <->
  In x window /\ (dist p x <= atm_threshold p)%Q.
Proof.
  rewrite tight_band_filter, filter_In, Qle_bool_iff. reflexivity.
Qed.

Lemma df_atm_cases (p : Q) (window : Rows) :
  (tight_band p window = [] /\ df_atm p window = window) \/
  (tight_band p window <> [] /\ df_atm p window = tight_band p window).
Proof.
  unfold df_atm. destruct (tight_band p window) eqn:E.
  - left. auto.
  - right. split; [discriminate|reflexivity].
Qed.



Lemma group_keys_nonempty (rows : Rows) :
  rows <> [] ->
  (forall x, In x rows -> exists d, expiration (snd x) = Some d) ->
  group_keys rows <> [].
Proof.
  intros Hne Hall. destruct rows as [|x rows]; [congruence|].
  destruct (Hall x (or_introl eq_refl)) as (d & Hd).
  assert (In d (group_keys (x :: rows))) as Hin.
  { apply group_keys_In. exists x. split; [now left|exact Hd]. }
  intros E. rewrite E in Hin. exact Hin.
Qed.

(** X4. A non-empty window produced by the window filter and a non-zero
    price always give a non-empty selection: when no strike is within 5%
    the fallback to the whole window still yields rows. *)
Theorem window_nonempty_selection (today : Z) (df : DataFrame) (window : Rows) (price : Q) :
  NoDup (index (body df)) ->
  df_two_months today df = Ok window ->
  window <> [] ->
  ~ (price == 0)%Q ->
  exists out, df_atm_grouped window (Some price) = Ok out /\ out <> [].
Proof.
  intros Hnd Hwin Hne Hp.
  assert (Hcol : has_column "expiration" df = true).
  { unfold df_two_months, date_column in Hwin.
    destruct (has_column "expiration" df); [reflexivity|discriminate]. }
  rewrite (df_two_months_filter _ _ Hcol) in Hwin. injection Hwin as Hwin.
  assert (Hndw : NoDup (index window)).
  { rewrite <- Hwin. now apply filter_index_NoDup. }
  assert (Hdated : forall x, In x window -> exists d, expiration (snd x) = Some d).
  { intros x Hx. rewrite <- Hwin in Hx. apply filter_In in Hx.
    destruct Hx as [_ Hx]. apply in_window_iff in Hx.
    destruct Hx as (d & Hd & _). eauto. }
  rewrite (df_atm_grouped_guarded _ _ Hne (truthy_nonzero _ Hp)).
  destruct (select_per_date_one_per_date price (df_atm price window)
              (df_atm_index_NoDup price window Hndw)) as (out & Hout & Hexp & _).
  exists out. split; [exact Hout|].
  assert (Hkeys : group_keys (df_atm price window) <> []).
  { destruct (df_atm_cases price window) as [[_ Ed]|[Hb Ed]]; rewrite Ed.
    - now apply group_keys_nonempty.
    - apply group_keys_nonempty; [exact Hb|].
      intros x Hx. apply in_band_iff in Hx. apply Hdated. tauto. }
  intros ->. simpl in Hexp.
  destruct (group_keys (df_atm price window)); [congruence|discriminate].
Qed.

Lemma negative_threshold (p : Q) : (p < 0)%Q -> (atm_threshold p < 0)%Q.
Proof.
  unfold atm_threshold, Qlt, Qmult. destruct p as [n d].
  cbn [Qnum Qden]. lia.
Qed.

(** X5. For a negative price the 5% threshold is negative, so no strike is
    within the band and the selection always runs on the whole window. *)
Theorem negative_price_uses_whole_window (window : Rows) (price : Q) :
  (price < 0)%Q ->
  tight_band price window = [] /\
  df_atm_grouped window (Some price) = select_per_date price window.
Proof.
  intros Hneg.
  assert (Hband : tight_band price window = []).
  { rewrite tight_band_filter. apply filter_none. intros y _.
    destruct (Qle_bool (dist price y) (atm_threshold price)) eqn:E; [|reflexivity].
    apply Qle_bool_iff in E. exfalso.
    apply (Qlt_irrefl 0). eapply Qle_lt_trans; [|apply (negative_threshold _ Hneg)].
    eapply Qle_trans; [apply Qabs_nonneg|exact E]. }
  split; [exact Hband|].
  destruct window as [|x window]; [reflexivity|].
  rewrite df_atm_grouped_guarded.
  - unfold df_atm. now rewrite Hband.
  - discriminate.
  - apply truthy_nonzero. intros E. rewrite E in Hneg. discriminate.
Qed.

(** * Further properties of the strikes table *)

Lemma standardize_expirDate_only (data : list StrikeRecord) :
  has_key expiration data = false -> has_key expirDate data = true ->
  standardize_expiration (pd_DataFrame data) =
  ([], Ok {| columns := columns (pd_DataFrame data) ++ ["expiration"%string];
             body := map (fun ir => (fst ir, set_expiration (expirDate (snd ir)) (snd ir)))
                         (body (pd_DataFrame data)) |}).
Proof.
  intros He Hd. unfold standardize_expiration.
  now rewrite pd_DataFrame_expiration, pd_DataFrame_expirDate, He, Hd.
Qed.

(** X6. When no strike record carries [expiration] but some carry
    [expirDate], standardizing is silent and the window is computed from
    [expirDate]: it holds exactly the input rows whose [expirDate] lies in
    [today, today + 60], each with [expiration] set to that date and its
    label kept. *)
Theorem window_from_expirDate (today : Z) (data : list StrikeRecord) :
  has_key expiration data = false ->
  has_key expirDate data = true ->
  exists df window,
    standardize_expiration (pd_DataFrame data) = ([], Ok df) /\
    df_two_months today df = Ok window /\
    forall i r,
      In (i, r) window <->
      exists r0 d, In (i, r0) (body (pd_DataFrame data)) /\
                   expirDate r0 = Some d /\ today <= d <= today + 60 /\
                   r = set_expiration (Some d) r0.
Proof.
  intros He Hd. eexists. eexists.
  split; [now apply standardize_expirDate_only|]. split.
  - apply df_two_months_filter, has_column_app.
  - intros i r. cbn [body]. rewrite filter_In, in_map_iff, in_window_iff. split.
    + intros [((i0 & r0) & E & Hin) (d & Ed & Hd')].
      simpl in E. injection E as -> <-. simpl in Ed.
      exists r0, d. rewrite Ed. auto.
    + intros (r0 & d & Hin & Ed & Hd' & ->). split.
      * exists (i, r0). simpl. now rewrite Ed.
      * exists d. simpl. auto.
Qed.

(** X7. When some strike record carries [expiration], that column is used
    as it is and [expirDate] is ignored: a record without [expiration] is
    never in the window, whatever its [expirDate]. *)
Theorem expiration_takes_precedence (today : Z) (data : list StrikeRecord) :
  has_key expiration data = true ->
  exists window,
    standardize_expiration (pd_DataFrame data) = ([], Ok (pd_DataFrame data)) /\
    df_two_months today (pd_DataFrame data) = Ok window /\
    (forall x, In x window <->
               In x (body (pd_DataFrame data)) /\ in_window today (snd x)) /\
    (forall x, In x (body (pd_DataFrame data)) ->
               expiration (snd x) = None -> ~ In x window).
Proof.
  intros He. eexists. split; [|split; [|split]].
  - unfold standardize_expiration. now rewrite pd_DataFrame_expiration, He.
  - apply df_two_months_filter. now rewrite pd_DataFrame_expiration.
  - intros x. rewrite filter_In, in_window_iff. reflexivity.
  - intros x _ Hnone Hx. apply filter_In in Hx. destruct Hx as [_ Hx].
    rewrite Hnone in Hx. discriminate.
Qed.

(** * Further properties of the run *)

Lemma bind_trace {A B} (m : page A) (k : A -> page B) :
  trace (bind m k) =
  trace m ++ match outcome m with
             | Ok a => trace (k a)
             | Raise _ => []
             end.
Proof.
  unfold trace, outcome, bind. destruct (snd m); simpl; [reflexivity|].
  now rewrite app_nil_r.
Qed.

Lemma page_eta {A} (m : page A) : m = (trace m, outcome m).
Proof. destruct m; reflexivity. Qed.

Lemma strikes_step_missing (w : World) (ticker : string) (price : option Q) sdata :
  resp_strikes w = Ok sdata ->
  has_key expiration (records sdata) = false ->
  has_key expirDate (records sdata) = false ->
  strikes_step w ticker price =
  ([requests_get (strikes_url (ORATS_TOKEN w) ticker);
    st_error "Strikes data missing 'expiration' or 'expirDate'."],
   Raise (KeyError "expiration")).
Proof.
  intros Hs Hk1 Hk2.
  destruct (standardize_expiration_missing _ Hk1 Hk2) as (Hstd & Hwin).
  unfold strikes_step, bind, emit, lift. cbn [fst snd].
  rewrite Hs. cbn [fst snd]. rewrite Hstd. cbn [fst snd].
  rewrite Hwin. reflexivity.
Qed.

(** X8. Whenever the summaries are not empty and no strike record carries
    [expiration] or [expirDate] (an empty strikes response included), the
    run shows the summaries, requests the strikes, shows the error about
    the missing field and ends there with KeyError: the cores request and
    the completion call are never made. *)
Theorem missing_date_keys_stop_run `{Rendering} (w : World) (ticker : string)
    (data : option Summaries) (sdata : option (list StrikeRecord)) :
  ticker <> ""%string ->
  resp_summaries w = Ok data ->
  summaries_empty (summaries_frame data) = false ->
  resp_strikes w = Ok sdata ->
  has_key expiration (records sdata) = false ->
  has_key expirDate (records sdata) = false ->
  run w ticker =
  (requests_get (summaries_url (ORATS_TOKEN w) ticker)
     :: trace (show_summaries ticker (summaries_frame data))
     ++ [requests_get (strikes_url (ORATS_TOKEN w) ticker);
         st_error "Strikes data missing 'expiration' or 'expirDate'."],
   Raise (KeyError "expiration")).
Proof.
  intros Ht Hr He Hs Hk1 Hk2. apply nonempty_ticker in Ht.
  rewrite (run_analysis w ticker data Ht Hr He), analysis_cases.
  assert (Hprep : prepare w ticker (summaries_frame data) =
                  (trace (show_summaries ticker (summaries_frame data))
                     ++ [requests_get (strikes_url (ORATS_TOKEN w) ticker);
                         st_error "Strikes data missing 'expiration' or 'expirDate'."],
                   Raise (KeyError "expiration"))).
  { rewrite (page_eta (prepare _ _ _)). unfold prepare.
    rewrite bind_trace, bind_outcome, show_summaries_outcome. cbn [rbind].
    now rewrite (strikes_step_missing w ticker _ sdata Hs Hk1 Hk2). }
  rewrite Hprep. reflexivity.
Qed.

(** X9. A quote summary without [stockPrice] never leads to a completion
    call: whatever the other responses are, the trace of the run holds no
    such call. *)
Theorem absent_price_no_completion_call `{Rendering} (w : World) (ticker : string)
    (data : option Summaries) :
  resp_summaries w = Ok data ->
  stockPrice (summaries_frame data) = None ->
  existsb is_completion_call (trace (run w ticker)) = false.
Proof.
  intros Hr Hp.
  destruct (String.eqb ticker "") eqn:Ht.
  { unfold run. now rewrite Ht. }
  destruct (summaries_empty (summaries_frame data)) eqn:He.
  { now rewrite (run_summaries_empty w ticker data Ht Hr He). }
  rewrite (run_analysis w ticker data Ht Hr He), analysis_cases.
  pose proof (prepare_quiet w ticker (summaries_frame data)) as Hquiet.
  rewrite prepare_outcome, Hp.
  destruct (outcome (strikes_step w ticker None)) as [atm|e]; [|exact Hquiet].
  destruct (resp_cores w) as [cdata|e]; exact Hquiet.
Qed.



Lemma calls_app (l1 l2 : list event) : calls (l1 ++ l2) = calls l1 ++ calls l2.
Proof. apply filter_app. Qed.

Lemma calls_bind {A B} (m : page A) (k : A -> page B) :
  calls (trace (bind m k)) =
  calls (trace m) ++ match outcome m with
                     | Ok a => calls (trace (k a))
                     | Raise _ => []
                     end.
Proof.
  rewrite bind_trace, calls_app. destruct (outcome m); reflexivity.
Qed.

Lemma calls_none (l : list event) :
  existsb (fun e => negb (is_output e)) l = false -> calls l = [].
Proof.
  intros H. apply filter_none. intros y Hy.
  destruct (negb (is_output y)) eqn:E; [|reflexivity].
  assert (existsb (fun e => negb (is_output e)) l = true) as Ht.
  { apply existsb_exists. exists y. auto. }
  congruence.
Qed.

Lemma strikes_step_calls (w : World) (ticker : string) (price : option Q) :
  calls (trace (strikes_step w ticker price)) =
  [requests_get (strikes_url (ORATS_TOKEN w) ticker)].
Proof.
  unfold strikes_step. rewrite calls_bind. cbn [emit trace outcome fst snd calls filter
                                                is_output negb app].
  f_equal. apply calls_none.
  repeat (apply bind_quiet; [|intros]); try reflexivity.
  - unfold standardize_expiration.
    match goal with |- context [has_column "expiration" ?d] =>
      destruct (has_column "expiration" d); [reflexivity|];
      destruct (has_column "expirDate" d); reflexivity
    end.
  - match goal with |- context [if ?x then _ else _] => destruct x; reflexivity end.
Qed.

Lemma cores_step_calls (w : World) (ticker : string) :
  calls (trace (cores_step w ticker)) =
  [requests_get (cores_url (ORATS_TOKEN w) ticker)].
Proof.
  unfold cores_step. rewrite calls_bind. cbn [emit trace outcome fst snd calls filter
                                              is_output negb app].
  f_equal. apply calls_none.
  repeat (apply bind_quiet; [|intros]); try reflexivity.
  match goal with |- context [if ?x then _ else _] => destruct x; reflexivity end.
Qed.

Lemma prepare_calls `{Rendering} (w : World) (ticker : string) (df : Summaries) :
  calls (trace (prepare w ticker df)) =
  requests_get (strikes_url (ORATS_TOKEN w) ticker)
    :: match outcome (strikes_step w ticker (stockPrice df)) with
       | Ok _ => [requests_get (cores_url (ORATS_TOKEN w) ticker)]
       | Raise _ => []
       end.
Proof.
  unfold prepare. rewrite calls_bind, show_summaries_outcome.
  assert (calls (trace (show_summaries ticker df)) = []) as ->.
  { unfold show_summaries. destruct (stockPrice df); reflexivity. }
  rewrite calls_bind, strikes_step_calls. cbn [app]. f_equal.
  destruct (outcome (strikes_step w ticker (stockPrice df))) as [atm|e]; [|reflexivity].
  rewrite calls_bind, cores_step_calls.
  destruct (outcome (cores_step w ticker)) as [df_cores|e]; [|reflexivity].
  rewrite calls_bind. cbn [lift trace outcome fst snd calls filter app].
  destruct (build_prompt ticker df atm df_cores (stockPrice df)); reflexivity.
Qed.

Lemma completion_tail_calls (r : result string) : calls (completion_tail r) = [].
Proof. destruct r; reflexivity. Qed.

(** X11. The outbound calls of a run, in the order made, are an initial
    part of the fixed sequence: summaries request, strikes request, cores
    request, completion call. No call is repeated and none is made before
    the ones that precede it in that sequence. *)
Theorem calls_in_fixed_order `{Rendering} (w : World) (ticker : string) :
  exists messages rest,
    calls (trace (run w ticker)) ++ rest = call_sequence w ticker messages.
Proof.
  destruct (String.eqb ticker "") eqn:Ht.
  { exists [], (call_sequence w ticker []). unfold run. now rewrite Ht. }
  destruct (resp_summaries w) as [data|e] eqn:Hr.
  2:{ rewrite (run_summaries_raise w ticker e Ht Hr).
      exists []. eexists. reflexivity. }
  destruct (summaries_empty (summaries_frame data)) eqn:He.
  { rewrite (run_summaries_empty w ticker data Ht Hr He).
    exists []. eexists. reflexivity. }
  rewrite (run_analysis w ticker data Ht Hr He), analysis_cases.
  pose proof (prepare_calls w ticker (summaries_frame data)) as Hcalls.
  pose proof (prepare_outcome w ticker (summaries_frame data)) as Hout.
  destruct (outcome (prepare w ticker (summaries_frame data))) as [messages|e].
  - exists messages, []. cbn [trace fst].
    change (calls (?x :: ?l)) with (calls ([x] ++ l)).
    rewrite !calls_app, Hcalls.
    change (calls (?x :: ?y :: ?l)) with (calls ([x; y] ++ l)).
    rewrite calls_app, completion_tail_calls.
    destruct (outcome (strikes_step w ticker (stockPrice (summaries_frame data))));
      [reflexivity|discriminate].
  - exists []. cbn [trace fst].
    change (calls (?x :: ?l)) with (calls ([x] ++ l)).
    rewrite calls_app, Hcalls.
    destruct (outcome (strikes_step w ticker (stockPrice (summaries_frame data))));
      eexists; reflexivity.
Qed.

(** X12. Whenever a run makes the completion call and the call returns a
    text, that text is written to the page right after the call, followed
    only by the closing line, and the run ends normally. *)
Theorem completion_answer_shown `{Rendering} (w : World) (ticker : string)
    (messages : list (string * string)) (ai_analysis : string) :
  In (ChatCompletion_create messages) (trace (run w ticker)) ->
  completion w messages = Ok ai_analysis ->
  exists pre,
    run w ticker =
      (pre ++ [ChatCompletion_create messages;
               st_write ai_analysis;
               st_write
                 "Analysis complete. Check above for AI interpretation of the ORATS data."],
       Ok tt) /\
    existsb is_completion_call pre = false.
Proof.
  intros Hin Hok.
  destruct (run_shape w ticker) as [Hnone|(pre & messages0 & Hpre & Hrun)].
  - exfalso. specialize (Hnone (completion w)).
    rewrite with_completion_same in Hnone.
    exact (quiet_not_In _ _ Hnone Hin).
  - pose proof (Hrun (completion w)) as Hw. rewrite with_completion_same in Hw.
    rewrite Hw in Hin. cbn [trace fst] in Hin.
    assert (messages0 = messages) as ->.
    { apply in_app_or in Hin. destruct Hin as [Hin|[Hin|Hin]].
      - exfalso. exact (quiet_not_In _ _ Hpre Hin).
      - congruence.
      - exfalso.
        exact (quiet_not_In _ _ (completion_tail_quiet (completion w messages0)) Hin). }
    exists pre. split; [|exact Hpre].
    rewrite Hw, Hok. reflexivity.
Qed.

(** ** Instances of the further properties on sample data *)

Lemma sample_window_labels : NoDup (index sample_window).
Proof. repeat constructor; simpl; intuition discriminate. Defined.

Lemma atm_one_row_per_date_sample :
  exists out keys,
    df_atm_grouped sample_window (Some 245%Q) = Ok out /\
    map (fun x => expiration (snd x)) out = map Some keys /\
    StronglySorted Z.lt keys /\
    index out = seq 0 (List.length out).
Proof.
  apply (atm_one_row_per_date sample_window (Some 245%Q)).
  exact sample_window_labels.
Defined.



Lemma window_nonempty_selection_sample :
  exists out,
    df_atm_grouped [(0%nat, mk 110 240); (2%nat, mk 160 246)] (Some 245%Q) = Ok out /\
    out <> [].
Proof.
  apply (window_nonempty_selection 100 sample_frame
           [(0%nat, mk 110 240); (2%nat, mk 160 246)] 245).
  - repeat constructor; simpl; intuition discriminate.
  - reflexivity.
  - discriminate.
  - discriminate.
Defined.

Lemma negative_price_uses_whole_window_sample :
  tight_band (-1) sample_window = [] /\
  df_atm_grouped sample_window (Some (-1)%Q) = select_per_date (-1) sample_window.
Proof.
  apply (negative_price_uses_whole_window sample_window (-1)). reflexivity.
Defined.

Lemma window_from_expirDate_sample :
  exists df window,
    standardize_expiration (pd_DataFrame [mk_expirDate 110 240; mk_expirDate 300 250])
      = ([], Ok df) /\
    df_two_months 100 df = Ok window /\
    forall i r,
      In (i, r) window <->
      exists r0 d,
        In (i, r0) (body (pd_DataFrame [mk_expirDate 110 240; mk_expirDate 300 250])) /\
        expirDate r0 = Some d /\ 100 <= d <= 100 + 60 /\
        r = set_expiration (Some d) r0.
Proof.
  apply (window_from_expirDate 100 [mk_expirDate 110 240; mk_expirDate 300 250]);
    reflexivity.
Defined.

Lemma expiration_takes_precedence_sample :
  exists window,
    standardize_expiration (pd_DataFrame [mk 110 240; mk_expirDate 120 250])
      = ([], Ok (pd_DataFrame [mk 110 240; mk_expirDate 120 250])) /\
    df_two_months 100 (pd_DataFrame [mk 110 240; mk_expirDate 120 250]) = Ok window /\
    (forall x, In x window <->
               In x (body (pd_DataFrame [mk 110 240; mk_expirDate 120 250])) /\
               in_window 100 (snd x)) /\
    (forall x, In x (body (pd_DataFrame [mk 110 240; mk_expirDate 120 250])) ->
               expiration (snd x) = None -> ~ In x window).
Proof.
  apply (expiration_takes_precedence 100 [mk 110 240; mk_expirDate 120 250]).
  reflexivity.
Defined.

Lemma missing_date_keys_stop_run_sample :
  run empty_strikes_world "AAPL" =
  (requests_get (summaries_url "tok" "AAPL")
     :: trace (show_summaries "AAPL" (WithStockPrice [(245%Q, sample_summary)]))
     ++ [requests_get (strikes_url "tok" "AAPL");
         st_error "Strikes data missing 'expiration' or 'expirDate'."],
   Raise (KeyError "expiration")).
Proof.
  apply (missing_date_keys_stop_run empty_strikes_world "AAPL"
           (Some (WithStockPrice [(245%Q, sample_summary)])) (Some [])).
  - discriminate.
  - reflexivity.
  - reflexivity.
  - reflexivity.
  - reflexivity.
  - reflexivity.
Defined.

Lemma absent_price_no_completion_call_sample :
  existsb is_completion_call (trace (run no_price_world "AAPL")) = false.
Proof.
  apply (absent_price_no_completion_call no_price_world "AAPL"
           (Some (WithoutStockPrice [sample_summary])));
    reflexivity.
Defined.


Lemma completion_answer_shown_sample :
  exists pre,
    run sample_world "AAPL" =
      (pre ++ [ChatCompletion_create sample_messages;
               st_write "fine";
               st_write
                 "Analysis complete. Check above for AI interpretation of the ORATS data."],
       Ok tt) /\
    existsb is_completion_call pre = false.
Proof.
  apply (completion_answer_shown sample_world "AAPL" sample_messages "fine").
  - vm_compute. do 11 right. left. reflexivity.
  - reflexivity.
Defined.

(** * The selector in window order *)








(** X14. When no windowed strike lies within 5% of a non-zero price, the
    dates of the selection are exactly the dates that occur in the window:
    the fallback gives every date its row. *)
Theorem atm_fallback_dates (window : Rows) (price : Q) (out : Rows) :
  NoDup (index window) ->
  tight_band price window = [] ->
  ~ (price == 0)%Q ->
  df_atm_grouped window (Some price) = Ok out ->
  forall k, In (Some k) (map (fun x => expiration (snd x)) out) <->
            exists ir, In ir window /\ expiration (snd ir) = Some k.
Proof.
  intros Hnd Hband Hp Hout k.
  destruct window as [|x0 window].
  { injection Hout as <-. simpl. split; [intros []|intros (? & [] & _)]. }
  rewrite df_atm_grouped_guarded in Hout;
    [|discriminate|now apply truthy_nonzero].
  unfold df_atm in Hout. rewrite Hband in Hout. cbn [empty] in Hout.
  destruct (select_per_date_one_per_date price _ Hnd) as (out' & Hout' & Hexp & _).
  rewrite Hout in Hout'. injection Hout' as <-.
  rewrite Hexp, <- group_keys_In. split.
  - intros Hk. apply in_map_iff in Hk. destruct Hk as (k' & Ek & Hk).
    now injection Ek as ->.
  - intros Hk. now apply in_map.
Qed.

(** X15. Every completion call of a run carries exactly two messages: the
    fixed system message and a user message that is the prompt built from
    the summaries shown, the ATM selection of the strikes step, the core
    records and a present price. *)
Theorem completion_call_messages `{Rendering} (w : World) (ticker : string)
    (messages : list (string * string)) :
  In (ChatCompletion_create messages) (trace (run w ticker)) ->
  exists data p atm cdata prompt,
    resp_summaries w = Ok data /\
    stockPrice (summaries_frame data) = Some p /\
    outcome (strikes_step w ticker (Some p)) = Ok atm /\
    resp_cores w = Ok cdata /\
    build_prompt ticker (summaries_frame data) atm (records cdata) (Some p) = Ok prompt /\
    messages = [system_message; ("user"%string, prompt)].
Proof.
  intros Hin.
  destruct (String.eqb ticker "") eqn:Ht.
  { unfold run in Hin. rewrite Ht in Hin. destruct Hin. }
  destruct (resp_summaries w) as [data|e] eqn:Hr.
  2:{ rewrite (run_summaries_raise w ticker e Ht Hr) in Hin.
      destruct Hin as [Hin|[]]. discriminate. }
  destruct (summaries_empty (summaries_frame data)) eqn:He.
  { rewrite (run_summaries_empty w ticker data Ht Hr He) in Hin.
    destruct Hin as [Hin|[Hin|[]]]; discriminate. }
  rewrite (run_analysis w ticker data Ht Hr He), analysis_cases in Hin.
  pose proof (prepare_quiet w ticker (summaries_frame data)) as Hquiet.
  pose proof (prepare_outcome w ticker (summaries_frame data)) as Hout.
  destruct (outcome (prepare w ticker (summaries_frame data))) as [messages0|e].
  - assert (messages0 = messages) as ->.
    { cbn [trace fst] in Hin. destruct Hin as [Hin|Hin]; [discriminate|].
      apply in_app_or in Hin. destruct Hin as [Hin|[Hin|[Hin|Hin]]].
      - exfalso. exact (quiet_not_In _ _ Hquiet Hin).
      - discriminate.
      - congruence.
      - exfalso.
        exact (quiet_not_In _ _ (completion_tail_quiet (completion w messages0)) Hin). }
    destruct (stockPrice (summaries_frame data)) as [p|] eqn:Hp.
    + destruct (outcome (strikes_step w ticker (Some p))) as [atm|e] eqn:Hstep;
        [|discriminate].
      cbn [rbind] in Hout.
      destruct (resp_cores w) as [cdata|e] eqn:Hc; [|discriminate].
      cbn [rbind] in Hout.
      destruct (build_prompt ticker (summaries_frame data) atm (records cdata) (Some p))
        as [prompt|e] eqn:Hprompt; [|discriminate].
      injection Hout as ->.
      exists data, p, atm, cdata, prompt. repeat split; try reflexivity; assumption.
    + exfalso.
      destruct (outcome (strikes_step w ticker None)) as [atm|e]; [|discriminate].
      cbn [rbind] in Hout.
      destruct (resp_cores w) as [cdata|e]; discriminate.
  - exfalso. cbn [trace fst] in Hin. destruct Hin as [Hin|Hin]; [discriminate|].
    exact (quiet_not_In _ _ Hquiet Hin).
Qed.

(** ** Instances on sample data, continued *)


Lemma atm_fallback_dates_sample :
  In (Some 120) (map (fun x => expiration (snd x))
                     [(0%nat, mk 110 240); (1%nat, mk 120 246)]) <->
  exists ir, In ir sample_window /\ expiration (snd ir) = Some 120.
Proof.
  apply (atm_fallback_dates sample_window 10 [(0%nat, mk 110 240); (1%nat, mk 120 246)]).
  - exact sample_window_labels.
  - reflexivity.
  - discriminate.
  - reflexivity.
Defined.

Lemma completion_call_messages_sample :
  exists data p atm cdata prompt,
    resp_summaries sample_world = Ok data /\
    stockPrice (summaries_frame data) = Some p /\
    outcome (strikes_step sample_world "AAPL" (Some p)) = Ok atm /\
    resp_cores sample_world = Ok cdata /\
    build_prompt "AAPL" (summaries_frame data) atm (records cdata) (Some p) = Ok prompt /\
    sample_messages = [system_message; ("user"%string, prompt)].
Proof.
  apply (completion_call_messages sample_world "AAPL" sample_messages).
  vm_compute. do 11 right. left. reflexivity.
Defined.
